(** * MADNESS world/worldrmi.h: the remote-method-invocation core

    A shallow embedding of [madness::qmsg], [madness::RMIStats] and
    [madness::RMI] (with its private [RmiTask]) and the properties of the
    design document that can be settled on them.

    Conventions.
    - C++ integers are [Z]; the wrap-around of a fixed-width unsigned type is
      written out ([wrap16], [wrap32]).
    - [rmi_handlerT] (a function pointer) and [const void*] buffers are the
      addresses they hold, as [Z].
    - A null pointer is [None].
    - The static members of [RMI] form the record [RMI.state], threaded
      explicitly; a call either returns or throws ([RMI.outcome]).
    - What the code writes to the transport and to [std::cerr] is appended to
      the logs [RMI.transport] and [RMI.cerr]. *)

From Stdlib Require Import ZArith Lia Bool String Ascii.
From stdpp Require Import base list.

Local Open Scope Z_scope.

(** ** Fixed-width integers *)

Definition wrap16 (x : Z) : Z := x mod 2 ^ 16.
Definition wrap32 (x : Z) : Z := x mod 2 ^ 32.

(** The values of [counterT]. *)
Definition counter_range (c : Z) : Prop := 0 <= c < 2 ^ 16.

Definition rmi_handlerT := Z.
Definition ProcessID := Z.

(** ** struct qmsg *)

Module qmsg.

Definition attrT_bits : Z := 32.

Record t := mk {
  len : Z;               (* size_t len *)
  func : rmi_handlerT;   (* rmi_handlerT func *)
  i : Z;                 (* int i: buffer index *)
  src : ProcessID;       (* ProcessID src *)
  attr : Z;              (* attrT attr *)
  count : Z              (* counterT count *)
}.

(** [bool operator<(const qmsg& other) const { return count < other.count; }] *)
Definition lt (a other : t) : bool := count a <? count other.

End qmsg.

(** ** struct RMIStats *)

Module RMIStats.

Record t := mk {
  nmsg_sent : Z;
  nbyte_sent : Z;
  nmsg_recv : Z;
  nbyte_recv : Z
}.

(** [RMIStats() : nmsg_sent(0), nbyte_sent(0), nmsg_recv(0), nbyte_recv(0) {}] *)
Definition init : t := mk 0 0 0 0.

End RMIStats.

(** ** class RMI::RmiTask: data members *)

Module RmiTask.

(** The members the properties below read or write.  [q] holds the
    [n_in_q] live entries of the array [std::unique_ptr<qmsg[]> q], so
    [n_in_q] is its length.  [huge_buf] is the extra slot
    [recv_buf[nrecv_]] the header reserves for huge messages ("+1 for huge
    messages"): [None] when nothing is posted there, otherwise the source
    and size it was posted for.  The MPI objects ([comm], [recv_req],
    [status], [ind]) are left out; what is sent is logged in
    [RMI.transport]. *)
Record t := mk {
  hugeq : list (Z * Z);          (* std::list< std::pair<int,size_t> > hugeq *)
  nproc : Z;                     (* const int nproc *)
  rank : ProcessID;              (* const ProcessID rank *)
  finished : bool;               (* volatile bool finished *)
  send_counters : list Z;        (* volatile counterT[] *)
  recv_counters : list Z;        (* counterT[] *)
  max_msg_len_ : Z;
  nrecv_ : Z;
  maxq_ : Z;
  huge_buf : option (ProcessID * Z);
  q : list qmsg.t                (* qmsg[]; first n_in_q entries *)
}.

Definition n_in_q (task : t) : Z := Z.of_nat (length (q task)).

End RmiTask.

(** ** class RMI: static members and the public operations *)

Module RMI.

Definition ALIGNMENT : Z := 64.
Definition HEADER_LEN : Z := ALIGNMENT.
Definition ATTR_UNORDERED : Z := 0.
Definition ATTR_ORDERED : Z := 1.

Definition DEFAULT_MAX_MSG_LEN : Z := 3 * 512 * 1024.
Definition DEFAULT_NRECV : Z := 128.

(** [static inline bool is_ordered(attrT attr) { return attr & ATTR_ORDERED; }] *)
Definition is_ordered (attr : Z) : bool :=
  negb (Z.land attr ATTR_ORDERED =? 0).

(** One non-blocking transport send, as issued by the send path. *)
Record packet := mk_packet {
  p_dest : ProcessID;
  p_func : rmi_handlerT;
  p_attr : Z;
  p_count : Z;
  p_nbyte : Z;
  p_buf : Z
}.

(** [RMI::Request]: the position of the send in the transport log. *)
Definition Request := nat.

Inductive diag :=
| diag_rmi_not_running     (* the two "!! MADNESS RMI error" lines of isend *)
| diag_exit_request (rank : ProcessID).
                           (* "<rank>:RMI: sending exit request to server thread" *)

Inductive exn :=
| MadnessException (msg : string)   (* MADNESS_EXCEPTION(msg, value) *)
| AssertionFailure.                 (* MADNESS_ASSERT(condition) fails *)

Record state := mk_state {
  task_ptr : option RmiTask.t;      (* static RmiTask* task_ptr *)
  stats : RMIStats.t;               (* static RMIStats stats *)
  debugging : bool;                 (* static volatile bool debugging *)
  testsome_backoff_us : Z;          (* static int testsome_backoff_us *)
  transport : list packet;          (* sends issued so far *)
  cerr : list diag                  (* lines written to std::cerr *)
}.

Definition set_task_ptr (p : option RmiTask.t) (st : state) : state :=
  mk_state p (stats st) (debugging st) (testsome_backoff_us st)
           (transport st) (cerr st).
Definition set_backoff (b : Z) (st : state) : state :=
  mk_state (task_ptr st) (stats st) (debugging st) b (transport st) (cerr st).
Definition put_cerr (d : diag) (st : state) : state :=
  mk_state (task_ptr st) (stats st) (debugging st) (testsome_backoff_us st)
           (transport st) (cerr st ++ [d]).

Inductive outcome (A : Type) :=
| Returns (a : A) (st : state)
| Throws (e : exn) (st : state).
Arguments Returns {A} a st.
Arguments Throws {A} e st.

Definition state_of {A} (o : outcome A) : state :=
  match o with Returns _ st => st | Throws _ st => st end.

Definition returned {A} (o : outcome A) : option A :=
  match o with Returns a _ => Some a | Throws _ _ => None end.

(** [static std::size_t max_msg_len()] *)
Definition max_msg_len (st : state) : Z :=
  match task_ptr st with
  | Some task => RmiTask.max_msg_len_ task
  | None => DEFAULT_MAX_MSG_LEN
  end.

(** [static std::size_t maxq()] *)
Definition maxq (st : state) : outcome Z :=
  match task_ptr st with
  | Some task => Returns (RmiTask.maxq_ task) st
  | None => Throws AssertionFailure st
  end.

(** [static std::size_t nrecv()] *)
Definition nrecv (st : state) : outcome Z :=
  match task_ptr st with
  | Some task => Returns (RmiTask.nrecv_ task) st
  | None => Throws AssertionFailure st
  end.

Record isend_args := mk_isend_args {
  a_buf : Z;
  a_nbyte : Z;
  a_dest : ProcessID;
  a_func : rmi_handlerT;
  a_attr : Z
}.

Section Statics.

(** [RmiTask::isend], [RmiTask::RmiTask()] and [operator>>(int&)] on a
    [std::stringstream] are not defined in worldrmi.h; the static
    operations are embedded over any behaviour of them.
    [extract_int buf old] is the value of the [int] after [ss >> x]
    when it held [old] before. *)
Variable task_isend : isend_args -> RmiTask.t -> state -> Request * state.
Variable new_RmiTask : (string -> option string) -> RmiTask.t.
Variable extract_int : string -> Z -> Z.

(** [static Request isend(buf, nbyte, dest, func, attr)] *)
Definition isend (a : isend_args) (st : state) : outcome Request :=
  match task_ptr st with
  | None =>
      Throws (MadnessException "!! MADNESS error: The RMI thread is not running")
             (put_cerr diag_rmi_not_running st)
  | Some task =>
      let '(req, st') := task_isend a task st in Returns req st'
  end.

(** [static void begin()]; [getenv] is the process environment. *)
Definition begin (getenv : string -> option string) (st : state)
  : outcome unit :=
  let st := set_backoff 5 st in
  let st :=
    match getenv "MAD_BACKOFF_US"%string with
    | Some buf =>
        let st := set_backoff (extract_int buf (testsome_backoff_us st)) st in
        let st := if testsome_backoff_us st <? 0 then set_backoff 0 st else st in
        if testsome_backoff_us st >? 100 then set_backoff 100 st else st
    | None => st
    end in
  match task_ptr st with
  | Some _ => Throws AssertionFailure st
  | None => Returns tt (set_task_ptr (Some (new_RmiTask getenv)) st)
  end.

(** [static void end()], as seen by the calling thread when
    [task_ptr->exit()] returns: [exit] may write a debug line, raises
    [finished] and waits for the server thread to lower it again (the
    hand-shake itself is the transition system [Shutdown] below). *)
Definition end_ (st : state) : outcome unit :=
  match task_ptr st with
  | Some task =>
      let st := if debugging st
                then put_cerr (diag_exit_request (RmiTask.rank task)) st
                else st in
      Returns tt (set_task_ptr None st)
  | None => Returns tt st
  end.

(** The back-off in force once [begin] is over. *)
Definition backoff_after_begin (getenv : string -> option string) (st : state) : Z :=
  testsome_backoff_us (state_of (begin getenv st)).

End Statics.

(** The statics of a process in which no server thread runs. *)
Definition idle : state := mk_state None RMIStats.init false 0 [] [].

(** [std::stringstream ss(buf); ss >> x] for an [int x], with the C++11
    rules of [num_get]: leading white space is skipped, an optional sign
    and decimal digits are read; without a digit the extraction fails
    and stores 0; a value outside [int] stores the nearest bound. *)
Definition is_space (c : ascii) : bool :=
  let n := Z.of_nat (nat_of_ascii c) in (n =? 32) || ((9 <=? n) && (n <=? 13)).

Definition digit_of (c : ascii) : option Z :=
  let n := Z.of_nat (nat_of_ascii c) in
  if (48 <=? n) && (n <=? 57) then Some (n - 48) else None.

Fixpoint skip_ws (s : string) : string :=
  match s with
  | String c s' => if is_space c then skip_ws s' else s
  | EmptyString => s
  end.

Fixpoint read_digits (s : string) (acc : option Z) : option Z :=
  match s with
  | String c s' =>
      match digit_of c with
      | Some d => read_digits s' (Some (10 * default 0 acc + d))
      | None => acc
      end
  | EmptyString => acc
  end.

Definition INT_MAX : Z := 2 ^ 31 - 1.
Definition INT_MIN : Z := - 2 ^ 31.

Definition stream_extract_int (buf : string) (old : Z) : Z :=
  let s := skip_ws buf in
  let '(neg, s) :=
    match s with
    | String "-"%char s' => (true, s')
    | String "+"%char s' => (false, s')
    | _ => (false, s)
    end in
  match read_digits s None with
  | None => 0
  | Some v =>
      let v := if neg then - v else v in
      Z.max INT_MIN (Z.min INT_MAX v)
  end.

(** A process environment in which only MAD_BACKOFF_US is set. *)
Definition env_backoff (v : string) (name : string) : option string :=
  if String.eqb name "MAD_BACKOFF_US" then Some v else None.




End RMI.


(** ** Send path: RmiTask::isend *)

Module SendPath.

Import RMI.

Definition set_send_counters (cs : list Z) (task : RmiTask.t) : RmiTask.t :=
  RmiTask.mk (RmiTask.hugeq task) (RmiTask.nproc task) (RmiTask.rank task)
    (RmiTask.finished task) cs (RmiTask.recv_counters task)
    (RmiTask.max_msg_len_ task) (RmiTask.nrecv_ task) (RmiTask.maxq_ task)
    (RmiTask.huge_buf task) (RmiTask.q task).

(** [send_counters[dest]].  The array has one entry per rank; indexing it
    with a [dest] outside the ranks is undefined in C++, and the
    properties below are stated for valid ranks. *)
Definition send_counter (task : RmiTask.t) (dest : ProcessID) : Z :=
  default 0 (RmiTask.send_counters task !! Z.to_nat dest).

(** Modelled from the spec: the counter assignment inside [RmiTask::isend],
    which worldrmi.h declares and does not define.  Design section 3, "Send
    Counter": one per destination, assigned only when ordering is
    requested, fixed-width, wraps.  The result is the counter stamped into
    the header for [dest] and the task after the stamp; [counterT] is
    [uint16_t] in worldrmi.h, so the increment is modulo 2^16. *)
Definition stamp (attr : Z) (dest : ProcessID) (task : RmiTask.t)
  : Z * RmiTask.t :=
  if is_ordered attr then
    let c := send_counter task dest in
    (c, set_send_counters
          (<[Z.to_nat dest := wrap16 (c + 1)]> (RmiTask.send_counters task)) task)
  else (0, task).

Definition count_sent (nbyte : Z) (s : RMIStats.t) : RMIStats.t :=
  RMIStats.mk (RMIStats.nmsg_sent s + 1) (RMIStats.nbyte_sent s + nbyte)
              (RMIStats.nmsg_recv s) (RMIStats.nbyte_recv s).

(** Modelled from the spec: [RmiTask::isend] is declared in worldrmi.h and
    defined outside it.  Design section 4.1: the send builds a header,
    stamps the next per-destination counter when ordering is requested,
    issues a non-blocking transport send of header and payload and returns
    a request handle; section 4.6 and 8: the sent-message and sent-byte
    statistics grow by one and by the length.  (The announcement that
    precedes a huge payload, section 4.4, is on the receiving side in
    [Huge] below.) *)
Definition isend (a : isend_args) (task : RmiTask.t) (st : state)
  : Request * state :=
  let '(c, task') := stamp (a_attr a) (a_dest a) task in
  let pkt := mk_packet (a_dest a) (a_func a) (a_attr a) c (a_nbyte a) (a_buf a) in
  (length (transport st),
   mk_state (Some task') (count_sent (a_nbyte a) (stats st)) (debugging st)
            (testsome_backoff_us st) (transport st ++ [pkt]) (cerr st)).


End SendPath.

(** ** Ordering engine: RmiTask::process_some *)

Module Ordering.

Import RMI.












(** Modelled from the spec: the constructor [RmiTask::RmiTask()] is
    declared in worldrmi.h and defined outside it.  A task as at start on
    [rank] of [n] processes: the default sizes of design section 4.5, every
    counter at zero, nothing pending. *)
Definition fresh (n : nat) (rank : ProcessID) : RmiTask.t :=
  RmiTask.mk [] (Z.of_nat n) rank false (replicate n 0) (replicate n 0)
    DEFAULT_MAX_MSG_LEN DEFAULT_NRECV DEFAULT_NRECV None [].




(** The ordered messages of source [A]. *)
Definition ordered_from (A : ProcessID) (m : qmsg.t) : Prop :=
  is_ordered (qmsg.attr m) = true /\ qmsg.src m = A.

#[global] Instance ordered_from_dec A m : Decision (ordered_from A m).
Proof. unfold ordered_from. apply _. Defined.






End Ordering.

(** ** Huge-message rendezvous: hugeq and post_pending_huge_msg *)

Module Huge.

Definition set_huge (hq : list (Z * Z)) (hb : option (ProcessID * Z))
  (task : RmiTask.t) : RmiTask.t :=
  RmiTask.mk hq (RmiTask.nproc task) (RmiTask.rank task)
    (RmiTask.finished task) (RmiTask.send_counters task)
    (RmiTask.recv_counters task)
    (RmiTask.max_msg_len_ task) (RmiTask.nrecv_ task) (RmiTask.maxq_ task)
    hb (RmiTask.q task).

(** Modelled from the spec: [RmiTask::post_pending_huge_msg] is declared in
    worldrmi.h and defined outside it.  Design section 4.4: when no oversize
    buffer is posted and a descriptor is queued, the oldest descriptor is
    taken from [hugeq] and a buffer of exactly its size is posted for its
    source.  The result lists the descriptor consumed, if any. *)
Definition post_pending_huge_msg (task : RmiTask.t)
  : RmiTask.t * list (Z * Z) :=
  match RmiTask.huge_buf task with
  | Some _ => (task, [])
  | None =>
      match RmiTask.hugeq task with
      | d :: rest => (set_huge rest (Some d) task, [d])
      | [] => (task, [])
      end
  end.

(** Modelled from the spec: [RmiTask::huge_msg_handler] is declared in
    worldrmi.h and defined outside it.  Design sections 3 and 4.4: the
    announcement of a huge message from [src] of [nbyte] bytes is recorded
    at the back of [hugeq], and a buffer is posted if none is. *)
Definition huge_msg_handler (src : ProcessID) (nbyte : Z) (task : RmiTask.t)
  : RmiTask.t * list (Z * Z) :=
  post_pending_huge_msg
    (set_huge (RmiTask.hugeq task ++ [(src, nbyte)]) (RmiTask.huge_buf task) task).

(** Modelled from the spec: the completion of the oversize receive (design
    section 4.4): after the dispatch the temporary buffer is released, and
    the next pending descriptor, if any, gets its buffer. *)
Definition huge_complete (task : RmiTask.t) : RmiTask.t * list (Z * Z) :=
  match RmiTask.huge_buf task with
  | Some _ => post_pending_huge_msg (set_huge (RmiTask.hugeq task) None task)
  | None => (task, [])
  end.

Inductive event :=
| Announce (src : ProcessID) (nbyte : Z)
| Complete.

Definition on_event (ev : event) (task : RmiTask.t) : RmiTask.t * list (Z * Z) :=
  match ev with
  | Announce src nbyte => huge_msg_handler src nbyte task
  | Complete => huge_complete task
  end.

(** The task after the events, and the descriptors consumed, in order. *)
Fixpoint run (evs : list event) (task : RmiTask.t) : RmiTask.t * list (Z * Z) :=
  match evs with
  | [] => (task, [])
  | ev :: evs' =>
      let '(task1, c1) := on_event ev task in
      let '(task2, c2) := run evs' task1 in
      (task2, c1 ++ c2)
  end.

(** The descriptors announced by the events, in order. *)
Fixpoint announced (evs : list event) : list (Z * Z) :=
  match evs with
  | [] => []
  | Announce src nbyte :: evs' => (src, nbyte) :: announced evs'
  | Complete :: evs' => announced evs'
  end.

Definition of_source (s : ProcessID) (ds : list (Z * Z)) : list (Z * Z) :=
  filter (fun d => fst d = s) ds.

End Huge.

(** ** Shutdown hand-shake: RmiTask::run, RmiTask::exit, RMI::end *)

Module Shutdown.

(** The server thread in [RmiTask::run] (the build without TBB):
    [try { while (!finished) process_some(); finished = false; }
     catch(...) { delete this; throw; }  delete this;] *)
Inductive server_pc :=
| S_loop_test        (* about to evaluate [!finished] *)
| S_process_some     (* inside [process_some()] *)
| S_clear_flag       (* left the loop, about to run [finished = false] *)
| S_delete           (* about to run [delete this] *)
| S_exited           (* the task is deleted, [run] has returned *)
| S_thrown.          (* [process_some] threw: the task is deleted in the
                        handler and the exception has left [run] *)

(** The calling thread in [RMI::end] and the [RmiTask::exit] it calls. *)
Inductive caller_pc :=
| C_before_end       (* about to evaluate [if (task_ptr)] *)
| C_exit_set         (* in [exit], about to run [finished = true] *)
| C_exit_wait        (* in [exit], about to evaluate [while (finished)] *)
| C_clear_ptr        (* [exit] returned, about to run [task_ptr = nullptr] *)
| C_returned.        (* [end] has returned *)

Record cfg := mk_cfg {
  finished : bool;               (* RmiTask::finished *)
  task_ptr_set : bool;           (* RMI::task_ptr != nullptr *)
  server : server_pc;
  caller : caller_pc;
  handled : list rmi_handlerT    (* handler invocations so far *)
}.

(** What [process_some] does next; it is defined outside worldrmi.h, so
    it is left free to invoke any handlers before it returns or throws. *)
Inductive body_step :=
| Invoke (h : rmi_handlerT)
| Return
| Throw.

(** One scheduling decision: the server thread runs one step ([body] is
    consulted inside [process_some]), or the caller runs one step
    ([stale] is consulted when it reads the flag of a deleted task). *)
Inductive action :=
| Server (body : body_step)
| Caller (stale : bool).

(** [delete this] has run: the flag is no longer there. *)
Definition deleted (c : cfg) : bool :=
  match server c with
  | S_exited | S_thrown => true
  | _ => false
  end.

Definition server_step (body : body_step) (c : cfg) : option cfg :=
  match server c with
  | S_loop_test =>
      if finished c
      then Some (mk_cfg (finished c) (task_ptr_set c) S_clear_flag (caller c) (handled c))
      else Some (mk_cfg (finished c) (task_ptr_set c) S_process_some (caller c) (handled c))
  | S_process_some =>
      match body with
      | Invoke h =>
          Some (mk_cfg (finished c) (task_ptr_set c) S_process_some (caller c)
                       (handled c ++ [h]))
      | Return =>
          Some (mk_cfg (finished c) (task_ptr_set c) S_loop_test (caller c) (handled c))
      | Throw =>
          Some (mk_cfg (finished c) (task_ptr_set c) S_thrown (caller c) (handled c))
      end
  | S_clear_flag =>
      Some (mk_cfg false (task_ptr_set c) S_delete (caller c) (handled c))
  | S_delete =>
      Some (mk_cfg (finished c) (task_ptr_set c) S_exited (caller c) (handled c))
  | S_exited | S_thrown => None
  end.

(** The value the caller reads for [finished]: the flag while the task
    exists, anything afterwards. *)
Definition read_finished (stale : bool) (c : cfg) : bool :=
  if deleted c then stale else finished c.

Definition caller_step (stale : bool) (c : cfg) : option cfg :=
  match caller c with
  | C_before_end =>
      if task_ptr_set c
      then Some (mk_cfg (finished c) (task_ptr_set c) (server c) C_exit_set (handled c))
      else Some (mk_cfg (finished c) (task_ptr_set c) (server c) C_returned (handled c))
  | C_exit_set =>
      Some (mk_cfg true (task_ptr_set c) (server c) C_exit_wait (handled c))
  | C_exit_wait =>
      if read_finished stale c
      then Some c     (* myusleep(1000), then test again *)
      else Some (mk_cfg (finished c) (task_ptr_set c) (server c) C_clear_ptr (handled c))
  | C_clear_ptr =>
      Some (mk_cfg (finished c) false (server c) C_returned (handled c))
  | C_returned => None
  end.

Definition step (a : action) (c : cfg) : option cfg :=
  match a with
  | Server body => server_step body c
  | Caller stale => caller_step stale c
  end.

(** The configuration after the schedule [sched], when every step of it is
    enabled. *)
Fixpoint exec (sched : list action) (c : cfg) : option cfg :=
  match sched with
  | [] => Some c
  | a :: sched' =>
      match step a c with
      | Some c' => exec sched' c'
      | None => None
      end
  end.

(** The server is in its loop and [end] has not been called. *)
Definition running (c : cfg) : Prop :=
  task_ptr_set c = true /\ caller c = C_before_end /\
  (server c = S_loop_test \/ server c = S_process_some).

(** The server has left its loop for good: it has lowered the flag and is
    about to delete the task or has done so, or the loop was left by an
    exception. *)
Definition server_left (c : cfg) : Prop :=
  server c = S_delete \/ server c = S_exited \/ server c = S_thrown.

(** What every reachable configuration satisfies: until [exit] raises
    the flag the pointer is set; while [exit] waits, a lowered flag means
    the server has left (only the server lowers it, after its loop); once
    [exit] is over the server has left. *)
Definition handshake (c : cfg) : Prop :=
  match caller c with
  | C_before_end | C_exit_set => task_ptr_set c = true
  | C_exit_wait => finished c = false -> server_left c
  | C_clear_ptr => server_left c
  | C_returned => server_left c /\ task_ptr_set c = false
  end.

(** [end] has returned and the server has left. *)
Definition quiet (c : cfg) : Prop := server_left c /\ caller c = C_returned.

(** The server does not leave its loop before it is asked to: until
    [exit] has raised the flag, the flag is down and the server is in its
    loop (or has been thrown out of it by [process_some]); while [exit]
    waits, the flag is up as long as the server has not lowered it. *)
Definition orderly (c : cfg) : Prop :=
  match caller c with
  | C_before_end | C_exit_set =>
      finished c = false /\
      (server c = S_loop_test \/ server c = S_process_some \/ server c = S_thrown)
  | C_exit_wait =>
      match server c with
      | S_loop_test | S_process_some | S_clear_flag => finished c = true
      | S_delete => finished c = false
      | S_exited | S_thrown => True
      end
  | C_clear_ptr | C_returned => True
  end.

(** The server steps that take the server out of its loop and up to
    [delete this], when [process_some] returns and the flag is up. *)
Definition wind_down (sv : server_pc) : list action :=
  match sv with
  | S_process_some => [Server Return; Server Return; Server Return]
  | S_loop_test => [Server Return; Server Return]
  | S_clear_flag => [Server Return]
  | S_delete | S_exited | S_thrown => []
  end.

(** A schedule that completes [end] from [c]: the caller raises the flag
    if it has not yet, the server winds down, the caller reads the
    lowered flag before the task is deleted and clears [task_ptr]. *)
Definition finish (stale : bool) (c : cfg) : list action :=
  match caller c with
  | C_before_end =>
      if task_ptr_set c
      then Caller stale :: Caller stale :: wind_down (server c)
           ++ [Caller stale; Caller stale]
      else [Caller stale]
  | C_exit_set =>
      Caller stale :: wind_down (server c) ++ [Caller stale; Caller stale]
  | C_exit_wait => wind_down (server c) ++ [Caller stale; Caller stale]
  | C_clear_ptr => [Caller stale]
  | C_returned => []
  end.

End Shutdown.

(** ** Shutdown hand-shake in the build with Intel TBB *)

Module ShutdownTBB.

(** The server task in [RmiTask::execute] (under [HAVE_INTEL_TBB]):
    [process_some();
     if (!finished) { increment_ref_count(); recycle_as_safe_continuation(); }
     else finished = false;
     return nullptr;]
    A recycled task is executed again by the TBB scheduler once [execute]
    has returned; a task that returns without recycling is complete: the
    scheduler destroys it and releases the parent that [RMI::end] waits
    for. *)
Inductive server_pc :=
| T_process_some     (* inside [process_some()] *)
| T_test             (* about to evaluate [!finished] *)
| T_clear_flag       (* about to run [finished = false] *)
| T_return           (* about to return without recycling *)
| T_done             (* the task is complete and destroyed *)
| T_thrown.          (* [process_some] threw out of [execute] *)

(** The calling thread in [RMI::end] (under [HAVE_INTEL_TBB]):
    [if (task_ptr) { task_ptr->exit(); tbb_rmi_parent_task->wait_for_all(); ...]
    then the parent task is destroyed and [task_ptr = nullptr] runs. *)
Inductive caller_pc :=
| C_before_end       (* about to evaluate [if (task_ptr)] *)
| C_exit_set         (* in [exit], about to run [finished = true] *)
| C_exit_wait        (* in [exit], about to evaluate [while (finished)] *)
| C_wait_for_all     (* about to return from [wait_for_all] *)
| C_destroy          (* about to destroy the parent task *)
| C_clear_ptr        (* about to run [task_ptr = nullptr] *)
| C_returned.        (* [end] has returned *)

Record cfg := mk_cfg {
  finished : bool;
  task_ptr_set : bool;
  server : server_pc;
  caller : caller_pc;
  handled : list rmi_handlerT
}.

(** One scheduling decision.  [free] is consulted where the header does
    not fix the outcome: the value read for the flag of a destroyed task,
    and whether the parent is released when [process_some] has thrown. *)
Inductive action :=
| Server (body : Shutdown.body_step)
| Caller (free : bool).

Definition destroyed (c : cfg) : bool :=
  match server c with
  | T_done | T_thrown => true
  | _ => false
  end.

Definition server_step (body : Shutdown.body_step) (c : cfg) : option cfg :=
  match server c with
  | T_process_some =>
      match body with
      | Shutdown.Invoke h =>
          Some (mk_cfg (finished c) (task_ptr_set c) T_process_some (caller c)
                       (handled c ++ [h]))
      | Shutdown.Return =>
          Some (mk_cfg (finished c) (task_ptr_set c) T_test (caller c) (handled c))
      | Shutdown.Throw =>
          Some (mk_cfg (finished c) (task_ptr_set c) T_thrown (caller c) (handled c))
      end
  | T_test =>
      if finished c
      then Some (mk_cfg (finished c) (task_ptr_set c) T_clear_flag (caller c) (handled c))
      else (* recycled: executed again *)
           Some (mk_cfg (finished c) (task_ptr_set c) T_process_some (caller c) (handled c))
  | T_clear_flag =>
      Some (mk_cfg false (task_ptr_set c) T_return (caller c) (handled c))
  | T_return =>
      Some (mk_cfg (finished c) (task_ptr_set c) T_done (caller c) (handled c))
  | T_done | T_thrown => None
  end.

Definition read_finished (free : bool) (c : cfg) : bool :=
  if destroyed c then free else finished c.

(** [wait_for_all] returns once the server task is complete; when the
    task was thrown out of [execute], whether it returns is left free. *)
Definition parent_released (free : bool) (c : cfg) : bool :=
  match server c with
  | T_done => true
  | T_thrown => free
  | _ => false
  end.

Definition caller_step (free : bool) (c : cfg) : option cfg :=
  match caller c with
  | C_before_end =>
      if task_ptr_set c
      then Some (mk_cfg (finished c) (task_ptr_set c) (server c) C_exit_set (handled c))
      else Some (mk_cfg (finished c) (task_ptr_set c) (server c) C_returned (handled c))
  | C_exit_set =>
      Some (mk_cfg true (task_ptr_set c) (server c) C_exit_wait (handled c))
  | C_exit_wait =>
      if read_finished free c
      then Some c
      else Some (mk_cfg (finished c) (task_ptr_set c) (server c) C_wait_for_all (handled c))
  | C_wait_for_all =>
      if parent_released free c
      then Some (mk_cfg (finished c) (task_ptr_set c) (server c) C_destroy (handled c))
      else Some c
  | C_destroy =>
      Some (mk_cfg (finished c) (task_ptr_set c) (server c) C_clear_ptr (handled c))
  | C_clear_ptr =>
      Some (mk_cfg (finished c) false (server c) C_returned (handled c))
  | C_returned => None
  end.

Definition step (a : action) (c : cfg) : option cfg :=
  match a with
  | Server body => server_step body c
  | Caller free => caller_step free c
  end.

Fixpoint exec (sched : list action) (c : cfg) : option cfg :=
  match sched with
  | [] => Some c
  | a :: sched' =>
      match step a c with
      | Some c' => exec sched' c'
      | None => None
      end
  end.

(** The server task is being executed and [end] has not been called. *)
Definition running (c : cfg) : Prop :=
  task_ptr_set c = true /\ caller c = C_before_end /\
  (server c = T_process_some \/ server c = T_test).

(** The server task will not be executed again. *)
Definition server_over (c : cfg) : Prop :=
  server c = T_done \/ server c = T_thrown.

Definition handshake (c : cfg) : Prop :=
  match caller c with
  | C_before_end | C_exit_set => task_ptr_set c = true
  | C_exit_wait | C_wait_for_all => True
  | C_destroy | C_clear_ptr => server_over c
  | C_returned => server_over c /\ task_ptr_set c = false
  end.

Definition quiet (c : cfg) : Prop := server_over c /\ caller c = C_returned.

End ShutdownTBB.

(** ** Layout of the message header *)

Module Layout.

(** The member types of [RmiTask::header] and [qmsg]. *)
Inductive ctype :=
| ty_rmi_handlerT     (* pointer to function *)
| ty_attrT            (* uint32_t *)
| ty_counterT         (* uint16_t *)
| ty_size_t
| ty_int.             (* int, ProcessID *)

(** The sizes the ABI fixes: bytes of a pointer and of [size_t]. *)
Record abi := mk_abi { pointer_bytes : Z; size_t_bytes : Z }.

Definition LP64 : abi := mk_abi 8 8.
Definition ILP32 : abi := mk_abi 4 4.

Definition sizeof (a : abi) (ty : ctype) : Z :=
  match ty with
  | ty_rmi_handlerT => pointer_bytes a
  | ty_attrT => 4
  | ty_counterT => 2
  | ty_size_t => size_t_bytes a
  | ty_int => 4
  end.

(** Scalars are aligned to their size. *)
Definition alignof (a : abi) (ty : ctype) : Z := sizeof a ty.

Definition align_up (x al : Z) : Z := (x + al - 1) / al * al.

(** Offset after laying out the members in order, each at the next
    multiple of its alignment. *)
Fixpoint members_end (a : abi) (tys : list ctype) (off : Z) : Z :=
  match tys with
  | [] => off
  | ty :: tys' => members_end a tys' (align_up off (alignof a ty) + sizeof a ty)
  end.

Definition struct_align (a : abi) (tys : list ctype) : Z :=
  foldr (fun ty m => Z.max (alignof a ty) m) 1 tys.

Definition struct_sizeof (a : abi) (tys : list ctype) : Z :=
  align_up (members_end a tys 0) (struct_align a tys).

(** [struct header { rmi_handlerT func; attrT attr; };] *)
Definition header : list (string * ctype) :=
  [("func"%string, ty_rmi_handlerT); ("attr"%string, ty_attrT)].

(** The members of [struct qmsg]. *)
Definition qmsg_members : list (string * ctype) :=
  [("len"%string, ty_size_t); ("func"%string, ty_rmi_handlerT);
   ("i"%string, ty_int); ("src"%string, ty_int);
   ("attr"%string, ty_attrT); ("count"%string, ty_counterT)].

Definition sizeof_header (a : abi) : Z := struct_sizeof a (map snd header).

(** The payload of a message follows [HEADER_LEN] bytes after the start of
    its buffer. *)
Definition payload_offset : Z := RMI.HEADER_LEN.

(** The four components the design document lists for the header. *)
Definition documented_components : list ctype :=
  [ty_rmi_handlerT; ty_attrT; ty_counterT; ty_size_t].

End Layout.

(** * Properties *)

(** ** Static interface of RMI *)

Section StaticInterface.

Import RMI.

Variable task_isend : isend_args -> RmiTask.t -> state -> Request * state.
Variable new_RmiTask : (string -> option string) -> RmiTask.t.
Variable extract_int : string -> Z -> Z.

Lemma isend_null_throws (a : isend_args) (st : state) :
  task_ptr st = None ->
  isend task_isend a st =
    Throws (MadnessException "!! MADNESS error: The RMI thread is not running")
           (put_cerr diag_rmi_not_running st).
Proof. intros Hnull. unfold isend. now rewrite Hnull. Qed.

(** C2: a call of [RMI::isend] while [task_ptr] is null throws the MADNESS
    exception: it returns no request handle, and it leaves the transport
    log and [task_ptr] as they were (only the error lines go to
    [std::cerr]); the task-level send is not reached, whatever it does. *)
Theorem C2_isend_without_server_throws (a : isend_args) (st : state) :
  task_ptr st = None ->
  (exists msg st', isend task_isend a st = Throws (MadnessException msg) st') /\
  returned (isend task_isend a st) = None /\
  transport (state_of (isend task_isend a st)) = transport st /\
  task_ptr (state_of (isend task_isend a st)) = None /\
  stats (state_of (isend task_isend a st)) = stats st.
Proof.
  intros Hnull. rewrite (isend_null_throws a st Hnull). cbn.
  repeat split; eauto.
Qed.

(** C9: the pool defaults are 128 receive slots and 3*512*1024 bytes per
    ordinary message; [max_msg_len()] is the running task's [max_msg_len_]
    when [task_ptr] is set, which may be any configured value, and the
    default otherwise. *)
Theorem C9_pool_defaults_and_max_msg_len :
  DEFAULT_NRECV = 128 /\
  DEFAULT_MAX_MSG_LEN = 3 * 512 * 1024 /\
  DEFAULT_MAX_MSG_LEN = 1572864 /\
  (forall st task, task_ptr st = Some task ->
     max_msg_len st = RmiTask.max_msg_len_ task /\
     returned (nrecv st) = Some (RmiTask.nrecv_ task)) /\
  (forall st, task_ptr st = None -> max_msg_len st = DEFAULT_MAX_MSG_LEN) /\
  (forall len n, exists st,
     max_msg_len st = len /\ returned (nrecv st) = Some n).
Proof.
  repeat split; try reflexivity.
  - unfold max_msg_len. now rewrite H.
  - unfold nrecv. now rewrite H.
  - intros st Hnull. unfold max_msg_len. now rewrite Hnull.
  - intros len n.
    exists (mk_state
              (Some (RmiTask.mk [] 1 0 false [0] [0] len n n None []))
              RMIStats.init false 5 [] []).
    split; reflexivity.
Qed.

Lemma end_null_noop (st : state) :
  task_ptr st = None -> end_ st = Returns tt st.
Proof. intros Hnull. unfold end_. now rewrite Hnull. Qed.

Lemma end_clears_task_ptr (st : state) : task_ptr (state_of (end_ st)) = None.
Proof.
  unfold end_. destruct (task_ptr st) eqn:Hp; cbn; [reflexivity | exact Hp].
Qed.

(** C10: [RMI::end] with a null [task_ptr] returns normally and changes
    nothing; since a returning [end] leaves [task_ptr] null, a second
    [end] after it is such a call. *)
Theorem C10_end_without_server_is_noop (st : state) :
  (task_ptr st = None -> end_ st = Returns tt st) /\
  end_ (state_of (end_ st)) = Returns tt (state_of (end_ st)).
Proof.
  split.
  - apply end_null_noop.
  - apply end_null_noop, end_clears_task_ptr.
Qed.

Lemma backoff_after_begin_eq getenv st :
  backoff_after_begin new_RmiTask extract_int getenv st =
    match getenv "MAD_BACKOFF_US"%string with
    | Some buf => Z.min 100 (Z.max 0 (extract_int buf 5))
    | None => 5
    end.
Proof.
  unfold backoff_after_begin, begin.
  destruct (getenv "MAD_BACKOFF_US"%string) as [buf|]; cbn.
  - destruct (Z.ltb_spec (extract_int buf 5) 0) as [Hneg|Hpos]; cbn.
    + destruct (task_ptr st); cbn; lia.
    + destruct (Z.gtb_spec (extract_int buf 5) 100) as [Hbig|Hok]; cbn;
        destruct (task_ptr st); cbn; lia.
  - destruct (task_ptr st); reflexivity.
Qed.

(** C5: after [RMI::begin] the back-off is 5 when MAD_BACKOFF_US is not
    set; when it is set, the value read from it replaces the default, a
    negative value becoming 0 and a value above 100 becoming 100; in every
    case the back-off lies between 0 and 100. *)
Theorem C5_backoff_default_and_clamp (getenv : string -> option string) (st : state) :
  let b := backoff_after_begin new_RmiTask extract_int getenv st in
  0 <= b <= 100 /\
  (getenv "MAD_BACKOFF_US"%string = None -> b = 5) /\
  (forall buf, getenv "MAD_BACKOFF_US"%string = Some buf ->
     let v := extract_int buf 5 in
     (v < 0 -> b = 0) /\ (100 < v -> b = 100) /\ (0 <= v <= 100 -> b = v)).
Proof.
  cbn zeta. rewrite backoff_after_begin_eq.
  destruct (getenv "MAD_BACKOFF_US"%string) as [buf|].
  - split; [lia|]. split; [discriminate|].
    intros buf' [= <-]. cbn zeta. lia.
  - split; [lia|]. split; [reflexivity|]. discriminate.
Qed.

End StaticInterface.

Lemma C2_isend_without_server_throws_witness :
  RMI.returned
    (RMI.isend SendPath.isend (RMI.mk_isend_args 4096 8 1 7 RMI.ATTR_ORDERED)
               RMI.idle) = None /\
  RMI.transport
    (RMI.state_of
       (RMI.isend SendPath.isend (RMI.mk_isend_args 4096 8 1 7 RMI.ATTR_ORDERED)
                  RMI.idle)) = [].
Proof.
  destruct (C2_isend_without_server_throws SendPath.isend
              (RMI.mk_isend_args 4096 8 1 7 RMI.ATTR_ORDERED) RMI.idle eq_refl)
    as (_ & Hret & Htr & _).
  split; [exact Hret | exact Htr].
Defined.

Lemma C10_end_without_server_is_noop_witness :
  RMI.end_ RMI.idle = RMI.Returns tt RMI.idle.
Proof.
  exact (proj1 (C10_end_without_server_is_noop RMI.idle) eq_refl).
Defined.

Lemma C5_backoff_default_and_clamp_witness :
  RMI.backoff_after_begin (fun _ => Ordering.fresh 2 0) RMI.stream_extract_int
    (RMI.env_backoff "250") RMI.idle = 100 /\
  RMI.backoff_after_begin (fun _ => Ordering.fresh 2 0) RMI.stream_extract_int
    (RMI.env_backoff " -3") RMI.idle = 0 /\
  RMI.backoff_after_begin (fun _ => Ordering.fresh 2 0) RMI.stream_extract_int
    (fun _ => None) RMI.idle = 5.
Proof.
  split; [|split].
  - destruct (C5_backoff_default_and_clamp (fun _ => Ordering.fresh 2 0)
                RMI.stream_extract_int (RMI.env_backoff "250") RMI.idle)
      as (_ & _ & H).
    apply (H "250"%string eq_refl). vm_compute. reflexivity.
  - destruct (C5_backoff_default_and_clamp (fun _ => Ordering.fresh 2 0)
                RMI.stream_extract_int (RMI.env_backoff " -3") RMI.idle)
      as (_ & _ & H).
    apply (H " -3"%string eq_refl). vm_compute. reflexivity.
  - destruct (C5_backoff_default_and_clamp (fun _ => Ordering.fresh 2 0)
                RMI.stream_extract_int (fun _ => None) RMI.idle)
      as (_ & H & _).
    apply H. reflexivity.
Defined.

(** ** Layout of the header *)

Lemma sizeof_header_le (a : Layout.abi) :
  Layout.pointer_bytes a = 4 \/ Layout.pointer_bytes a = 8 ->
  Layout.sizeof_header a <= RMI.HEADER_LEN.
Proof.
  destruct a as [p z]. cbn [Layout.pointer_bytes].
  intros [-> | ->]; vm_compute; discriminate.
Qed.

(** C4, as stated, fails: [struct header] has no member of the counter
    type and none of the length type. *)
Lemma C4_header_components_counterexample :
  ~ (forall ty, In ty Layout.documented_components ->
                In ty (map snd Layout.header)).
Proof.
  intros H. specialize (H Layout.ty_counterT).
  cbn in H. intuition discriminate.
Qed.

(** C4, amended: the header record has exactly the members [func] (the
    handler reference) and [attr] (the attribute bits); [HEADER_LEN] is
    [ALIGNMENT], which is 64; [sizeof(header)] is at most [HEADER_LEN] on
    an ABI with 4- or 8-byte pointers; the payload offset is a multiple of
    the alignment whatever the header holds; the counter and the length
    are members of [qmsg]. *)
Theorem C4_header_layout :
  map snd Layout.header = [Layout.ty_rmi_handlerT; Layout.ty_attrT] /\
  RMI.HEADER_LEN = RMI.ALIGNMENT /\
  RMI.ALIGNMENT = 64 /\
  (forall a, Layout.pointer_bytes a = 4 \/ Layout.pointer_bytes a = 8 ->
             Layout.sizeof_header a <= RMI.HEADER_LEN) /\
  Layout.payload_offset mod RMI.ALIGNMENT = 0 /\
  (In Layout.ty_counterT (map snd Layout.qmsg_members) /\
   In Layout.ty_size_t (map snd Layout.qmsg_members)).
Proof.
  split; [reflexivity|]. split; [reflexivity|]. split; [reflexivity|].
  split; [exact sizeof_header_le|]. split; [reflexivity|].
  cbn. tauto.
Qed.

Lemma C4_header_layout_witness :
  Layout.sizeof_header Layout.LP64 <= RMI.HEADER_LEN.
Proof.
  destruct C4_header_layout as (_ & _ & _ & H & _).
  apply H. right. reflexivity.
Defined.

(** ** Send counters *)






(** ** Huge descriptors *)

Lemma post_pending_conserves (task : RmiTask.t) :
  RmiTask.hugeq task =
    snd (Huge.post_pending_huge_msg task)
    ++ RmiTask.hugeq (fst (Huge.post_pending_huge_msg task)).
Proof.
  unfold Huge.post_pending_huge_msg.
  destruct (RmiTask.huge_buf task); [reflexivity|].
  destruct (RmiTask.hugeq task) eqn:Hq; cbn; [now rewrite Hq | reflexivity].
Qed.

Lemma on_event_conserves (ev : Huge.event) (task : RmiTask.t) :
  RmiTask.hugeq task ++ Huge.announced [ev] =
    snd (Huge.on_event ev task) ++ RmiTask.hugeq (fst (Huge.on_event ev task)).
Proof.
  destruct ev as [src nbyte|]; cbn [Huge.on_event Huge.announced].
  - unfold Huge.huge_msg_handler.
    rewrite <- post_pending_conserves. reflexivity.
  - unfold Huge.huge_complete. rewrite app_nil_r.
    destruct (RmiTask.huge_buf task); [|reflexivity].
    rewrite <- post_pending_conserves. reflexivity.
Qed.

Lemma announced_cons (ev : Huge.event) (evs : list Huge.event) :
  Huge.announced (ev :: evs) = Huge.announced [ev] ++ Huge.announced evs.
Proof. destruct ev; reflexivity. Qed.

Lemma run_conserves (evs : list Huge.event) (task : RmiTask.t) :
  RmiTask.hugeq task ++ Huge.announced evs =
    snd (Huge.run evs task) ++ RmiTask.hugeq (fst (Huge.run evs task)).
Proof.
  revert task. induction evs as [|ev evs IH]; intros task.
  - cbn. apply app_nil_r.
  - rewrite announced_cons. cbn [Huge.run].
    pose proof (on_event_conserves ev task) as Hev.
    destruct (Huge.on_event ev task) as [task1 c1]. cbn [fst snd] in Hev.
    specialize (IH task1).
    destruct (Huge.run evs task1) as [task2 c2]. cbn [fst snd] in *.
    rewrite app_assoc, Hev, <- !app_assoc. f_equal. exact IH.
Qed.

(** C6: the descriptors are consumed in the order in which they were
    queued: after any sequence of announcements and completions, the
    descriptors consumed so far followed by those still in [hugeq] are the
    descriptors queued, in queueing order; and so for the descriptors of
    each single source.  A descriptor is consumed by posting the oversize
    buffer for it. *)
Theorem C6_huge_descriptors_fifo
  (evs : list Huge.event) (task : RmiTask.t) (s : ProcessID) :
  let consumed := snd (Huge.run evs task) in
  let task' := fst (Huge.run evs task) in
  RmiTask.hugeq task ++ Huge.announced evs = consumed ++ RmiTask.hugeq task' /\
  Huge.of_source s (RmiTask.hugeq task ++ Huge.announced evs) =
    Huge.of_source s consumed ++ Huge.of_source s (RmiTask.hugeq task') /\
  (forall ev d, snd (Huge.on_event ev task) = [d] ->
                RmiTask.huge_buf (fst (Huge.on_event ev task)) = Some d).
Proof.
  cbn zeta. pose proof (run_conserves evs task) as H.
  split; [exact H|]. split.
  - unfold Huge.of_source. rewrite H. apply filter_app.
  - intros ev d. destruct ev as [src nbyte|]; cbn [Huge.on_event];
      unfold Huge.huge_msg_handler, Huge.huge_complete, Huge.post_pending_huge_msg.
    + cbn. destruct (RmiTask.huge_buf task); [discriminate|].
      destruct (RmiTask.hugeq task ++ [(src, nbyte)]); [discriminate|].
      cbn. now intros [= ->].
    + destruct (RmiTask.huge_buf task); [|discriminate].
      cbn. destruct (RmiTask.hugeq task); [discriminate|].
      cbn. now intros [= ->].
Qed.

(** ** Shutdown *)

Section ShutdownProofs.

Import Shutdown.

Lemma running_handshake (c : cfg) : running c -> handshake c.
Proof. intros (Hp & Hc & _). unfold handshake. now rewrite Hc. Qed.

Lemma step_handshake (a : action) (c c' : cfg) :
  handshake c -> step a c = Some c' -> handshake c'.
Proof.
  destruct c as [f p sv cl h].
  destruct a as [body|]; cbn.
  - unfold server_step, handshake, server_left; cbn.
    destruct sv, cl, f; try destruct body; cbn;
      intros Hinv [= <-]; cbn; intuition congruence.
  - unfold caller_step, read_finished, deleted, handshake, server_left; cbn.
    destruct cl, sv, f, p, stale; cbn; intros Hinv [= <-]; cbn;
      intuition congruence.
Qed.

Lemma exec_handshake (sched : list action) (c c' : cfg) :
  handshake c -> exec sched c = Some c' -> handshake c'.
Proof.
  revert c. induction sched as [|a sched IH]; intros c Hinv; cbn.
  - now intros [= <-].
  - destruct (step a c) as [c1|] eqn:Hstep; [|discriminate].
    apply IH. eapply step_handshake; eauto.
Qed.

Lemma step_quiet (a : action) (c c' : cfg) :
  quiet c -> step a c = Some c' -> quiet c' /\ handled c' = handled c.
Proof.
  destruct c as [f p sv cl h]. unfold quiet, server_left; cbn.
  intros [Hsv ->]. destruct a as [body|stale]; cbn; [|discriminate].
  unfold server_step; cbn.
  destruct Hsv as [-> | [-> | ->]]; cbn; try discriminate.
  intros [= <-]; cbn. auto.
Qed.

Lemma exec_quiet (sched : list action) (c c' : cfg) :
  quiet c -> exec sched c = Some c' -> quiet c' /\ handled c' = handled c.
Proof.
  revert c. induction sched as [|a sched IH]; intros c Hq; cbn.
  - intros [= <-]. auto.
  - destruct (step a c) as [c1|] eqn:Hstep; [|discriminate].
    destruct (step_quiet a c c1 Hq Hstep) as [Hq1 Hh1].
    intros Hrest. destruct (IH c1 Hq1 Hrest) as [Hq' Hh']. split; congruence.
Qed.

(** C7: from a configuration in which the server thread is in its loop
    and [end] is being called, whatever the interleaving of the steps of
    the two threads: [exit] raises [finished] and leaves its wait only
    after the server thread has left its loop (lowering the flag on its
    way out), so when [end] has returned the server thread is out of its
    loop for good, [task_ptr] is null, and from then on no schedule adds a
    handler invocation. *)
Theorem C7_end_returns_after_server_left
  (c0 : cfg) (sched : list action) (c : cfg) :
  running c0 ->
  exec sched c0 = Some c ->
  caller c = C_returned ->
  server_left c /\
  task_ptr_set c = false /\
  (forall sched' c', exec sched' c = Some c' ->
                     handled c' = handled c /\ server_left c').
Proof.
  intros Hrun Hexec Hret.
  pose proof (exec_handshake sched c0 c (running_handshake c0 Hrun) Hexec) as Hinv.
  unfold handshake in Hinv. rewrite Hret in Hinv.
  destruct Hinv as (Hleft & Hptr).
  split; [exact Hleft|]. split; [exact Hptr|].
  intros sched' c' Hexec'.
  destruct (exec_quiet sched' c c' (conj Hleft Hret) Hexec') as [[Hl _] Hh].
  auto.
Qed.

End ShutdownProofs.

Lemma C7_end_returns_after_server_left_witness :
  Shutdown.server_left
    (Shutdown.mk_cfg false false Shutdown.S_delete Shutdown.C_returned [7]) /\
  Shutdown.handled
    (Shutdown.mk_cfg false false Shutdown.S_exited Shutdown.C_returned [7]) = [7].
Proof.
  destruct (C7_end_returns_after_server_left
            (Shutdown.mk_cfg false true Shutdown.S_loop_test Shutdown.C_before_end [])
            [Shutdown.Server Shutdown.Return; Shutdown.Server (Shutdown.Invoke 7);
             Shutdown.Caller false; Shutdown.Caller false; Shutdown.Caller false;
             Shutdown.Server Shutdown.Return; Shutdown.Server Shutdown.Return;
             Shutdown.Caller false; Shutdown.Server Shutdown.Return;
             Shutdown.Caller false; Shutdown.Caller false]
            (Shutdown.mk_cfg false false Shutdown.S_delete Shutdown.C_returned [7]))
    as (Hleft & _ & Hafter).
  - unfold Shutdown.running. cbn. auto.
  - reflexivity.
  - reflexivity.
  - split; [exact Hleft|].
    apply (Hafter [Shutdown.Server (Shutdown.Invoke 9)]). reflexivity.
Defined.

(** ** Ordering engine *)

Section OrderingProofs.

Import Ordering.





(** *** The counter arrays under [advance] and [set_q] *)






(** *** Windows of counters *)








(** *** Draining *)



(** *** One completed receive *)




(** *** The server on a sequence of completed receives *)




(** *** Sources do not interfere *)







(** *** Counters stamped by consecutive sends *)




End OrderingProofs.







(** ** Width of the counters *)



(** * Further properties of worldrmi.h *)

(** ** Attribute bits and the order of queued messages *)

Lemma is_ordered_odd (attr : Z) : RMI.is_ordered attr = Z.odd attr.
Proof.
  unfold RMI.is_ordered, RMI.ATTR_ORDERED.
  change 1 with (Z.ones 1). rewrite Z.land_ones by lia.
  change (2 ^ 1) with 2. rewrite Zmod_odd. now destruct (Z.odd attr).
Qed.

(** X1: [is_ordered] looks at the lowest attribute bit only: it is that
    bit; anything stored in the bits from position [n > 0] upwards does not
    change it; or-ing in [ATTR_ORDERED] makes a message ordered, and
    [ATTR_UNORDERED] is not ordered. *)
Theorem is_ordered_lowest_bit (attr hi n : Z) :
  0 < n ->
  RMI.is_ordered attr = Z.testbit attr 0 /\
  RMI.is_ordered (Z.lor attr (Z.shiftl hi n)) = RMI.is_ordered attr /\
  RMI.is_ordered (Z.lor attr RMI.ATTR_ORDERED) = true /\
  RMI.is_ordered (Z.lor (Z.shiftl hi n) RMI.ATTR_UNORDERED) = false.
Proof.
  intros Hn. rewrite !is_ordered_odd, <- !Z.bit0_odd, !Z.lor_spec.
  rewrite (Z.shiftl_spec_low hi n 0) by lia.
  split; [reflexivity|]. split; [apply orb_false_r|].
  split; [apply orb_true_r|reflexivity].
Qed.

Lemma is_ordered_lowest_bit_witness :
  RMI.is_ordered (Z.lor RMI.ATTR_ORDERED (Z.shiftl 65535 16)) = true.
Proof.
  destruct (is_ordered_lowest_bit RMI.ATTR_ORDERED 65535 16) as (_ & H & _).
  - lia.
  - rewrite H. reflexivity.
Defined.

(** X2: [qmsg::operator<] is a strict weak ordering, as sorting with it
    needs: irreflexive, transitive, and with a transitive incomparability,
    which is having the same counter; the source, the handler, the buffer
    and the length play no part. *)
Theorem qmsg_lt_strict_weak_order :
  (forall a, qmsg.lt a a = false) /\
  (forall a b c, qmsg.lt a b = true -> qmsg.lt b c = true -> qmsg.lt a c = true) /\
  (forall a b, qmsg.lt a b = false /\ qmsg.lt b a = false <->
               qmsg.count a = qmsg.count b) /\
  (forall a b c,
     qmsg.lt a b = false -> qmsg.lt b a = false ->
     qmsg.lt b c = false -> qmsg.lt c b = false ->
     qmsg.lt a c = false /\ qmsg.lt c a = false) /\
  (forall a len func i src attr,
     qmsg.lt (qmsg.mk len func i src attr (qmsg.count a)) a = false /\
     qmsg.lt a (qmsg.mk len func i src attr (qmsg.count a)) = false).
Proof.
  unfold qmsg.lt. repeat split; intros; cbn in *;
    repeat match goal with
           | H : (_ <? _) = true |- _ => apply Z.ltb_lt in H
           | H : (_ <? _) = false |- _ => apply Z.ltb_ge in H
           | H : _ /\ _ |- _ => destruct H
           | |- (_ <? _) = true => apply Z.ltb_lt
           | |- (_ <? _) = false => apply Z.ltb_ge
           end; lia.
Qed.

(** X3: the order of [operator<] against the 16-bit counter: the message
    stamped with the successor of a counter compares greater, except that
    the successor of 65535 is 0 and compares less. *)
Theorem qmsg_lt_successor (m m' : qmsg.t) :
  counter_range (qmsg.count m) ->
  qmsg.count m' = wrap16 (qmsg.count m + 1) ->
  (qmsg.lt m m' = true <-> qmsg.count m < 65535) /\
  (qmsg.lt m' m = true <-> qmsg.count m = 65535).
Proof.
  unfold counter_range, qmsg.lt, wrap16. intros Hr ->.
  rewrite !Z.ltb_lt.
  destruct (decide (qmsg.count m = 65535)) as [->|Hne].
  - change ((65535 + 1) mod 2 ^ 16) with 0. lia.
  - rewrite Z.mod_small by lia. lia.
Qed.

Lemma qmsg_lt_successor_witness :
  qmsg.lt (qmsg.mk 8 1 0 0 RMI.ATTR_ORDERED 0)
          (qmsg.mk 8 1 0 0 RMI.ATTR_ORDERED 65535) = true.
Proof.
  apply (qmsg_lt_successor (qmsg.mk 8 1 0 0 RMI.ATTR_ORDERED 65535)
                           (qmsg.mk 8 1 0 0 RMI.ATTR_ORDERED 0)).
  - unfold counter_range. cbn. lia.
  - reflexivity.
  - reflexivity.
Defined.

(** ** The static operations over the life of the server *)

Section Lifecycle.

Import RMI.

Variable task_isend : isend_args -> RmiTask.t -> state -> Request * state.
Variable new_RmiTask : (string -> option string) -> RmiTask.t.
Variable extract_int : string -> Z -> Z.

Lemma begin_null (getenv : string -> option string) (st : state) :
  task_ptr st = None ->
  begin new_RmiTask extract_int getenv st =
    Returns tt
      (mk_state (Some (new_RmiTask getenv)) (stats st) (debugging st)
         (backoff_after_begin new_RmiTask extract_int getenv st)
         (transport st) (cerr st)).
Proof.
  intros Hnull. unfold backoff_after_begin, begin. cbn.
  destruct (getenv "MAD_BACKOFF_US"%string) as [buf|]; cbn.
  - destruct (extract_int buf 5 <? 0); cbn;
      [destruct (0 >? 100) | destruct (extract_int buf 5 >? 100)]; cbn;
      rewrite Hnull; reflexivity.
  - rewrite Hnull. reflexivity.
Qed.

Lemma begin_running (getenv : string -> option string) (st : state) (task : RmiTask.t) :
  task_ptr st = Some task ->
  begin new_RmiTask extract_int getenv st =
    Throws AssertionFailure
      (mk_state (Some task) (stats st) (debugging st)
         (backoff_after_begin new_RmiTask extract_int getenv st)
         (transport st) (cerr st)).
Proof.
  intros Hrun. unfold backoff_after_begin, begin. cbn.
  destruct (getenv "MAD_BACKOFF_US"%string) as [buf|]; cbn.
  - destruct (extract_int buf 5 <? 0); cbn;
      [destruct (0 >? 100) | destruct (extract_int buf 5 >? 100)];
      unfold set_backoff; cbn; rewrite Hrun; reflexivity.
  - unfold set_backoff; cbn. rewrite Hrun. reflexivity.
Qed.

(** X4: [RMI::begin] returns exactly when no server runs, and then
    [task_ptr] is the task it has created; with a server running it fails
    its assertion before creating anything: that server's task stays in
    place and nothing changes except the back-off, which has been set anew
    all the same. *)
Theorem begin_starts_one_server (getenv : string -> option string) (st : state) :
  let b := backoff_after_begin new_RmiTask extract_int getenv st in
  (returned (begin new_RmiTask extract_int getenv st) = Some tt <->
   task_ptr st = None) /\
  (task_ptr st = None ->
     task_ptr (state_of (begin new_RmiTask extract_int getenv st))
       = Some (new_RmiTask getenv)) /\
  (forall task, task_ptr st = Some task ->
     begin new_RmiTask extract_int getenv st =
       Throws AssertionFailure
         (mk_state (Some task) (stats st) (debugging st) b (transport st) (cerr st))).
Proof.
  cbn zeta. split; [|split].
  - destruct (task_ptr st) as [task|] eqn:Hp.
    + rewrite (begin_running getenv st task Hp). cbn. split; discriminate.
    + rewrite (begin_null getenv st Hp). cbn. split; reflexivity.
  - intros Hp. now rewrite (begin_null getenv st Hp).
  - intros task. apply begin_running.
Qed.

(** X5: the back-off that [begin] leaves depends on the environment only:
    whatever [testsome_backoff_us] held before, and whether or not a
    server was running, it is overwritten. *)
Theorem begin_overwrites_backoff
  (getenv : string -> option string) (st st' : state) :
  backoff_after_begin new_RmiTask extract_int getenv st =
  backoff_after_begin new_RmiTask extract_int getenv st'.
Proof.
  unfold backoff_after_begin, begin. cbn.
  destruct (getenv "MAD_BACKOFF_US"%string) as [buf|]; cbn.
  - destruct (extract_int buf 5 <? 0); cbn;
      [destruct (0 >? 100) | destruct (extract_int buf 5 >? 100)]; cbn;
      destruct (task_ptr st), (task_ptr st'); reflexivity.
  - destruct (task_ptr st), (task_ptr st'); reflexivity.
Qed.

(** X6: begin and end alternate.  From a state without server: after
    [begin], [max_msg_len()], [maxq()] and [nrecv()] return the new task's
    values, [isend] reaches the task's [isend], and a second [begin]
    fails; after the [end] that follows, [isend] throws, [maxq()] and
    [nrecv()] fail their assertion, [max_msg_len()] is the default again
    and [begin] succeeds again. *)
Theorem begin_end_alternate
  (getenv getenv' : string -> option string) (a : isend_args) (st : state) :
  task_ptr st = None ->
  let st1 := state_of (begin new_RmiTask extract_int getenv st) in
  let st2 := state_of (end_ st1) in
  max_msg_len st1 = RmiTask.max_msg_len_ (new_RmiTask getenv) /\
  maxq st1 = Returns (RmiTask.maxq_ (new_RmiTask getenv)) st1 /\
  nrecv st1 = Returns (RmiTask.nrecv_ (new_RmiTask getenv)) st1 /\
  returned (isend task_isend a st1)
    = Some (fst (task_isend a (new_RmiTask getenv) st1)) /\
  returned (begin new_RmiTask extract_int getenv' st1) = None /\
  task_ptr (state_of (begin new_RmiTask extract_int getenv' st1))
    = Some (new_RmiTask getenv) /\
  returned (isend task_isend a st2) = None /\
  maxq st2 = Throws AssertionFailure st2 /\
  nrecv st2 = Throws AssertionFailure st2 /\
  max_msg_len st2 = DEFAULT_MAX_MSG_LEN /\
  returned (begin new_RmiTask extract_int getenv' st2) = Some tt.
Proof.
  intros Hnull. cbn zeta. rewrite (begin_null getenv st Hnull). cbn [state_of].
  set (st1 := mk_state _ _ _ _ _ _).
  assert (Hp1 : task_ptr st1 = Some (new_RmiTask getenv)) by reflexivity.
  assert (Hp2 : task_ptr (state_of (end_ st1)) = None) by apply end_clears_task_ptr.
  split; [reflexivity|]. split; [reflexivity|]. split; [reflexivity|].
  split.
  { unfold isend. rewrite Hp1.
    now destruct (task_isend a (new_RmiTask getenv) st1). }
  split; [now rewrite (begin_running getenv' st1 _ Hp1)|].
  split; [now rewrite (begin_running getenv' st1 _ Hp1)|].
  split; [unfold isend; now rewrite Hp2|].
  split; [unfold maxq; now rewrite Hp2|].
  split; [unfold nrecv; now rewrite Hp2|].
  split; [unfold max_msg_len; now rewrite Hp2|].
  now rewrite (begin_null getenv' _ Hp2).
Qed.


End Lifecycle.

Lemma begin_end_alternate_witness :
  RMI.returned
    (RMI.isend SendPath.isend (RMI.mk_isend_args 4096 8 1 7 RMI.ATTR_ORDERED)
       (RMI.state_of
          (RMI.end_
             (RMI.state_of
                (RMI.begin (fun _ => Ordering.fresh 2 0) RMI.stream_extract_int
                           (RMI.env_backoff "7") RMI.idle))))) = None.
Proof.
  destruct (begin_end_alternate SendPath.isend (fun _ => Ordering.fresh 2 0)
              RMI.stream_extract_int (RMI.env_backoff "7") (RMI.env_backoff "7")
              (RMI.mk_isend_args 4096 8 1 7 RMI.ATTR_ORDERED) RMI.idle eq_refl)
    as (_ & _ & _ & _ & _ & _ & H & _).
  exact H.
Defined.


Lemma begin_starts_one_server_witness :
  RMI.returned
    (RMI.begin (fun _ => Ordering.fresh 2 0) RMI.stream_extract_int
       (RMI.env_backoff "7")
       (RMI.mk_state (Some (Ordering.fresh 4 3)) RMIStats.init false 5 [] []))
  = None.
Proof.
  destruct (begin_starts_one_server (fun _ => Ordering.fresh 2 0)
              RMI.stream_extract_int (RMI.env_backoff "7")
              (RMI.mk_state (Some (Ordering.fresh 4 3)) RMIStats.init false 5 [] []))
    as (_ & _ & H).
  now rewrite (H (Ordering.fresh 4 3) eq_refl).
Defined.

(** ** The hand-shake step by step *)

Section ShutdownSteps.

Import Shutdown.

Lemma running_orderly (c : cfg) : running c -> finished c = false -> orderly c.
Proof.
  intros (_ & Hc & Hs) Hf. unfold orderly. rewrite Hc. split; [exact Hf|tauto].
Qed.

Lemma step_orderly (a : action) (c c' : cfg) :
  orderly c -> step a c = Some c' -> orderly c'.
Proof.
  destruct c as [f p sv cl h].
  destruct a as [body|stale]; cbn.
  - unfold server_step, orderly; cbn.
    destruct sv, cl, f; try destruct body; cbn;
      intros Hinv [= <-]; cbn; intuition congruence.
  - unfold caller_step, read_finished, deleted, orderly; cbn.
    destruct cl, sv, f, p, stale; cbn; intros Hinv [= <-]; cbn;
      intuition congruence.
Qed.

Lemma exec_orderly (sched : list action) (c c' : cfg) :
  orderly c -> exec sched c = Some c' -> orderly c'.
Proof.
  revert c. induction sched as [|a sched IH]; intros c Hinv; cbn.
  - now intros [= <-].
  - destruct (step a c) as [c1|] eqn:Hstep; [|discriminate].
    apply IH. eapply step_orderly; eauto.
Qed.

(** X8: the server does not stop unasked.  From a configuration with the
    server in its loop and the flag down, in every schedule: as long as
    [exit] has not raised the flag, the flag is down and the server is
    still in its loop, unless [process_some] has thrown. *)
Theorem server_runs_until_asked (c0 : cfg) (sched : list action) (c : cfg) :
  running c0 -> finished c0 = false ->
  exec sched c0 = Some c ->
  caller c = C_before_end \/ caller c = C_exit_set ->
  finished c = false /\
  (server c = S_loop_test \/ server c = S_process_some \/ server c = S_thrown).
Proof.
  intros Hrun Hf Hexec Hc.
  pose proof (exec_orderly sched c0 c (running_orderly c0 Hrun Hf) Hexec) as Hinv.
  unfold orderly in Hinv. destruct Hc as [Hc|Hc]; rewrite Hc in Hinv; exact Hinv.
Qed.

(** X9: [exit] blocks.  In every configuration reached from a running
    server, a caller waiting in [exit] while the server has not yet
    lowered the flag stays where it is when it runs: it reads a raised
    flag and sleeps again. *)
Theorem exit_waits_for_server
  (c0 : cfg) (sched : list action) (c : cfg) (stale : bool) :
  running c0 ->
  exec sched c0 = Some c ->
  caller c = C_exit_wait ->
  server c = S_loop_test \/ server c = S_process_some \/ server c = S_clear_flag ->
  finished c = true /\ step (Caller stale) c = Some c.
Proof.
  intros Hrun Hexec Hc Hs.
  pose proof (exec_handshake sched c0 c (running_handshake c0 Hrun) Hexec) as Hinv.
  unfold handshake in Hinv. rewrite Hc in Hinv.
  assert (Hf : finished c = true).
  { destruct (finished c); [reflexivity|].
    destruct (Hinv eq_refl) as [H|[H|H]]; destruct Hs as [H'|[H'|H']]; congruence. }
  split; [exact Hf|].
  cbn. unfold caller_step, read_finished, deleted. rewrite Hc.
  destruct Hs as [H|[H|H]]; rewrite H, Hf; reflexivity.
Qed.

(** X10: [end] can always be completed in a few steps.  From a
    configuration with the server in its loop and the flag down, in every
    configuration reached in which the task still exists, the schedule
    [finish] (the flag is raised, [process_some] returns, the server
    leaves its loop, lowers the flag and the caller reads it before the
    task is deleted) has at most seven steps, all enabled, and ends with
    [end] returned; no read of a deleted flag is involved, whatever such a
    read would give. *)
Theorem end_completes_within_seven_steps
  (c0 : cfg) (sched : list action) (c : cfg) (stale : bool) :
  running c0 -> finished c0 = false ->
  exec sched c0 = Some c ->
  deleted c = false ->
  (length (finish stale c) <= 7)%nat /\
  exists c', exec (finish stale c) c = Some c' /\
             caller c' = C_returned /\
             task_ptr_set c' = false /\
             deleted c' = false /\
             handled c' = handled c.
Proof.
  intros Hrun Hf Hexec Hdel.
  pose proof (exec_orderly sched c0 c (running_orderly c0 Hrun Hf) Hexec) as Hord.
  pose proof (exec_handshake sched c0 c (running_handshake c0 Hrun) Hexec) as Hhs.
  destruct c as [f p sv cl h].
  unfold orderly, handshake, server_left, deleted in *; cbn in *.
  destruct sv, cl, f, p; cbn in *;
    try discriminate; try (exfalso; intuition congruence);
    (split; [lia|]); eexists; (split; [reflexivity|]); cbn; auto.
Qed.

End ShutdownSteps.

Lemma server_runs_until_asked_witness :
  Shutdown.server
    (Shutdown.mk_cfg false true Shutdown.S_process_some Shutdown.C_exit_set [7])
  = Shutdown.S_process_some.
Proof.
  destruct (server_runs_until_asked
              (Shutdown.mk_cfg false true Shutdown.S_loop_test Shutdown.C_before_end [])
              [Shutdown.Server Shutdown.Return; Shutdown.Server (Shutdown.Invoke 7);
               Shutdown.Caller false]
              (Shutdown.mk_cfg false true Shutdown.S_process_some Shutdown.C_exit_set [7]))
    as [_ H].
  - unfold Shutdown.running. cbn. auto.
  - reflexivity.
  - reflexivity.
  - right. reflexivity.
  - reflexivity.
Defined.

Lemma exit_waits_for_server_witness :
  Shutdown.step (Shutdown.Caller false)
    (Shutdown.mk_cfg true true Shutdown.S_process_some Shutdown.C_exit_wait [])
  = Some (Shutdown.mk_cfg true true Shutdown.S_process_some Shutdown.C_exit_wait []).
Proof.
  refine (proj2 (exit_waits_for_server
            (Shutdown.mk_cfg false true Shutdown.S_loop_test Shutdown.C_before_end [])
            [Shutdown.Server Shutdown.Return; Shutdown.Caller false;
             Shutdown.Caller false]
            (Shutdown.mk_cfg true true Shutdown.S_process_some Shutdown.C_exit_wait [])
            false _ _ _ _)).
  - unfold Shutdown.running. cbn. auto.
  - reflexivity.
  - reflexivity.
  - right. left. reflexivity.
Defined.

Lemma end_completes_within_seven_steps_witness :
  (length (Shutdown.finish true
     (Shutdown.mk_cfg false true Shutdown.S_process_some Shutdown.C_before_end [7%Z]))
   <= 7)%nat.
Proof.
  refine (proj1 (end_completes_within_seven_steps
            (Shutdown.mk_cfg false true Shutdown.S_loop_test Shutdown.C_before_end [])
            [Shutdown.Server Shutdown.Return; Shutdown.Server (Shutdown.Invoke 7)]
            (Shutdown.mk_cfg false true Shutdown.S_process_some Shutdown.C_before_end [7])
            true _ _ _ _)).
  - unfold Shutdown.running. cbn. auto.
  - reflexivity.
  - reflexivity.
  - reflexivity.
Defined.

(** ** The hand-shake in the build with Intel TBB *)

Section ShutdownTBBProofs.

Import ShutdownTBB.

Lemma tbb_running_handshake (c : cfg) : running c -> handshake c.
Proof. intros (Hp & Hc & _). unfold handshake. now rewrite Hc. Qed.

Lemma tbb_step_handshake (a : action) (c c' : cfg) :
  handshake c -> step a c = Some c' -> handshake c'.
Proof.
  destruct c as [f p sv cl h].
  destruct a as [body|free]; cbn.
  - unfold server_step, handshake, server_over; cbn.
    destruct sv, cl, f; try destruct body; cbn;
      intros Hinv [= <-]; cbn; intuition congruence.
  - unfold caller_step, read_finished, parent_released, destroyed, handshake,
      server_over; cbn.
    destruct cl, sv, f, p, free; cbn; intros Hinv [= <-]; cbn;
      intuition congruence.
Qed.

Lemma tbb_exec_handshake (sched : list action) (c c' : cfg) :
  handshake c -> exec sched c = Some c' -> handshake c'.
Proof.
  revert c. induction sched as [|a sched IH]; intros c Hinv; cbn.
  - now intros [= <-].
  - destruct (step a c) as [c1|] eqn:Hstep; [|discriminate].
    apply IH. eapply tbb_step_handshake; eauto.
Qed.

Lemma tbb_step_quiet (a : action) (c c' : cfg) :
  quiet c -> step a c = Some c' -> quiet c' /\ handled c' = handled c.
Proof.
  destruct c as [f p sv cl h]. unfold quiet, server_over; cbn.
  intros [Hsv ->]. destruct a as [body|free]; cbn; [|discriminate].
  unfold server_step; cbn.
  destruct Hsv as [-> | ->]; cbn; discriminate.
Qed.

Lemma tbb_exec_quiet (sched : list action) (c c' : cfg) :
  quiet c -> exec sched c = Some c' -> quiet c' /\ handled c' = handled c.
Proof.
  revert c. induction sched as [|a sched IH]; intros c Hq; cbn.
  - intros [= <-]. auto.
  - destruct (step a c) as [c1|] eqn:Hstep; [|discriminate].
    destruct (tbb_step_quiet a c c1 Hq Hstep) as [Hq1 Hh1].
    intros Hrest. destruct (IH c1 Hq1 Hrest) as [Hq' Hh']. split; congruence.
Qed.

(** X11: in the build with TBB as well, whatever the interleaving of the
    server task and the caller: when [end] has returned, [execute] has
    returned for the last time (the task is complete, or [process_some]
    threw out of it), [task_ptr] is null, and no step is left to the
    server, so no handler runs afterwards.  Here it is [wait_for_all] that
    holds the caller back, even if the flag of the destroyed task reads
    as lowered too early. *)
Theorem tbb_end_returns_after_task_complete
  (c0 : cfg) (sched : list action) (c : cfg) :
  running c0 ->
  exec sched c0 = Some c ->
  caller c = C_returned ->
  server_over c /\
  task_ptr_set c = false /\
  (forall body, step (Server body) c = None) /\
  (forall sched' c', exec sched' c = Some c' -> handled c' = handled c).
Proof.
  intros Hrun Hexec Hret.
  pose proof (tbb_exec_handshake sched c0 c (tbb_running_handshake c0 Hrun) Hexec)
    as Hinv.
  unfold handshake in Hinv. rewrite Hret in Hinv. destruct Hinv as (Hover & Hptr).
  split; [exact Hover|]. split; [exact Hptr|]. split.
  - intros body. cbn. unfold server_step.
    destruct Hover as [-> | ->]; reflexivity.
  - intros sched' c' Hexec'.
    now destruct (tbb_exec_quiet sched' c c' (conj Hover Hret) Hexec').
Qed.

End ShutdownTBBProofs.

Lemma tbb_end_returns_after_task_complete_witness :
  ShutdownTBB.server_over
    (ShutdownTBB.mk_cfg false false ShutdownTBB.T_done ShutdownTBB.C_returned [7]).
Proof.
  refine (proj1 (tbb_end_returns_after_task_complete
            (ShutdownTBB.mk_cfg false true ShutdownTBB.T_process_some
                                ShutdownTBB.C_before_end [])
            [ShutdownTBB.Server (Shutdown.Invoke 7); ShutdownTBB.Caller false;
             ShutdownTBB.Caller false; ShutdownTBB.Server Shutdown.Return;
             ShutdownTBB.Server Shutdown.Return; ShutdownTBB.Server Shutdown.Return;
             ShutdownTBB.Caller false; ShutdownTBB.Caller false;
             ShutdownTBB.Server Shutdown.Return;
             ShutdownTBB.Caller false; ShutdownTBB.Caller false;
             ShutdownTBB.Caller false]
            (ShutdownTBB.mk_cfg false false ShutdownTBB.T_done
                                ShutdownTBB.C_returned [7])
            _ _ _)).
  - unfold ShutdownTBB.running. cbn. auto.
  - reflexivity.
  - reflexivity.
Defined.
